(** * The activity monitor of Workrave: LocalActivityMonitor.cc

    A shallow embedding of [ActivityMonitor] (libs/core/src/LocalActivityMonitor.cc):
    the object is a record, every member function is a computation in a
    small state monad over the object and a trace of what the function lets
    the outside see (the listener callback, the publication of the state),
    and the properties of the state machine are theorems about running these
    computations. *)

From Stdlib Require Import ZArith List Bool Lia.
Import ListNotations.
Local Open Scope Z_scope.

(** ** Machine integers

    [int] is a 32-bit and [gint64] a 64-bit signed integer; both are carried
    by [Z], and every arithmetic operation wraps its result into the range of
    its type. *)

Module MachineInt.

Definition wrap (bits z : Z) : Z :=
  (z + 2 ^ (bits - 1)) mod 2 ^ bits - 2 ^ (bits - 1).

Definition fits (bits z : Z) : Prop :=
  - 2 ^ (bits - 1) <= z < 2 ^ (bits - 1).

Definition int_of (z : Z) : Z := wrap 32 z.
Definition gint64_of (z : Z) : Z := wrap 64 z.

Definition fits_int (z : Z) : Prop := fits 32 z.
Definition fits_gint64 (z : Z) : Prop := fits 64 z.

Definition int_sub (a b : Z) : Z := int_of (a - b).
Definition int_mul (a b : Z) : Z := int_of (a * b).
(* abs of <cstdlib> on int *)
Definition int_abs (a : Z) : Z := int_of (Z.abs a).

Definition gint64_add (a b : Z) : Z := gint64_of (a + b).
Definition gint64_sub (a b : Z) : Z := gint64_of (a - b).
(* C++ division truncates towards zero *)
Definition gint64_div (a b : Z) : Z := gint64_of (Z.quot a b).

End MachineInt.
Import MachineInt.

(** GLib's macro (gtypes.h): an [int] literal, so that a product of an [int]
    with it is computed in [int]. *)
Definition G_USEC_PER_SEC : Z := 1000000.

(** ** The object *)

Inductive ActivityState : Type :=
| ACTIVITY_IDLE
| ACTIVITY_NOISE
| ACTIVITY_ACTIVE
| ACTIVITY_SUSPENDED.

Definition ActivityState_eqb (a b : ActivityState) : bool :=
  match a, b with
  | ACTIVITY_IDLE, ACTIVITY_IDLE
  | ACTIVITY_NOISE, ACTIVITY_NOISE
  | ACTIVITY_ACTIVE, ACTIVITY_ACTIVE
  | ACTIVITY_SUSPENDED, ACTIVITY_SUSPENDED => true
  | _, _ => false
  end.

(** An [ActivityMonitorListener *] that is not null: the identity of the
    listener object. What its [action_notify()] answers is an input of the
    operation that calls it. *)
Definition Listener : Type := nat.

(** The input monitor the factory hands out; the monitor only subscribes to
    it and terminates it. *)
Record IInputMonitor : Type := mkIInputMonitor {
  subscribed : bool;
  terminated : bool
}.

(** The data members of [ActivityMonitor].

    [activity_state] is a traced field: a value that can be published. The
    declaration of the field is in ActivityMonitor.hh; whether an assignment
    to it publishes by itself or publication is left to the calls of
    [publish()] is the field's mode, [activity_state_manual], fixed when the
    object is built and never changed.

    [lock] is the mutex of the object; the member is the number of times the
    running thread holds it (see [lock_lock] below). *)
Record ActivityMonitor : Type := mkActivityMonitor {
  activity_state : ActivityState;
  activity_state_manual : bool;
  noise_threshold : Z;
  activity_threshold : Z;
  idle_threshold : Z;
  sensitivity : Z;
  first_action_time : Z;
  last_action_time : Z;
  prev_x : Z;
  prev_y : Z;
  button_is_pressed : bool;
  listener : option Listener;
  lock : nat;
  input_monitor : option IInputMonitor
}.

(** Field updates. *)

Definition with_activity_state (v : ActivityState) (m : ActivityMonitor) : ActivityMonitor :=
  mkActivityMonitor
    v (activity_state_manual m)
    (noise_threshold m) (activity_threshold m) (idle_threshold m) (sensitivity m)
    (first_action_time m) (last_action_time m)
    (prev_x m) (prev_y m) (button_is_pressed m)
    (listener m) (lock m) (input_monitor m).

Definition with_noise_threshold (v : Z) (m : ActivityMonitor) : ActivityMonitor :=
  mkActivityMonitor
    (activity_state m) (activity_state_manual m)
    v (activity_threshold m) (idle_threshold m) (sensitivity m)
    (first_action_time m) (last_action_time m)
    (prev_x m) (prev_y m) (button_is_pressed m)
    (listener m) (lock m) (input_monitor m).

Definition with_activity_threshold (v : Z) (m : ActivityMonitor) : ActivityMonitor :=
  mkActivityMonitor
    (activity_state m) (activity_state_manual m)
    (noise_threshold m) v (idle_threshold m) (sensitivity m)
    (first_action_time m) (last_action_time m)
    (prev_x m) (prev_y m) (button_is_pressed m)
    (listener m) (lock m) (input_monitor m).

Definition with_idle_threshold (v : Z) (m : ActivityMonitor) : ActivityMonitor :=
  mkActivityMonitor
    (activity_state m) (activity_state_manual m)
    (noise_threshold m) (activity_threshold m) v (sensitivity m)
    (first_action_time m) (last_action_time m)
    (prev_x m) (prev_y m) (button_is_pressed m)
    (listener m) (lock m) (input_monitor m).

Definition with_sensitivity (v : Z) (m : ActivityMonitor) : ActivityMonitor :=
  mkActivityMonitor
    (activity_state m) (activity_state_manual m)
    (noise_threshold m) (activity_threshold m) (idle_threshold m) v
    (first_action_time m) (last_action_time m)
    (prev_x m) (prev_y m) (button_is_pressed m)
    (listener m) (lock m) (input_monitor m).

Definition with_first_action_time (v : Z) (m : ActivityMonitor) : ActivityMonitor :=
  mkActivityMonitor
    (activity_state m) (activity_state_manual m)
    (noise_threshold m) (activity_threshold m) (idle_threshold m) (sensitivity m)
    v (last_action_time m)
    (prev_x m) (prev_y m) (button_is_pressed m)
    (listener m) (lock m) (input_monitor m).

Definition with_last_action_time (v : Z) (m : ActivityMonitor) : ActivityMonitor :=
  mkActivityMonitor
    (activity_state m) (activity_state_manual m)
    (noise_threshold m) (activity_threshold m) (idle_threshold m) (sensitivity m)
    (first_action_time m) v
    (prev_x m) (prev_y m) (button_is_pressed m)
    (listener m) (lock m) (input_monitor m).

Definition with_prev_x (v : Z) (m : ActivityMonitor) : ActivityMonitor :=
  mkActivityMonitor
    (activity_state m) (activity_state_manual m)
    (noise_threshold m) (activity_threshold m) (idle_threshold m) (sensitivity m)
    (first_action_time m) (last_action_time m)
    v (prev_y m) (button_is_pressed m)
    (listener m) (lock m) (input_monitor m).

Definition with_prev_y (v : Z) (m : ActivityMonitor) : ActivityMonitor :=
  mkActivityMonitor
    (activity_state m) (activity_state_manual m)
    (noise_threshold m) (activity_threshold m) (idle_threshold m) (sensitivity m)
    (first_action_time m) (last_action_time m)
    (prev_x m) v (button_is_pressed m)
    (listener m) (lock m) (input_monitor m).

Definition with_button_is_pressed (v : bool) (m : ActivityMonitor) : ActivityMonitor :=
  mkActivityMonitor
    (activity_state m) (activity_state_manual m)
    (noise_threshold m) (activity_threshold m) (idle_threshold m) (sensitivity m)
    (first_action_time m) (last_action_time m)
    (prev_x m) (prev_y m) v
    (listener m) (lock m) (input_monitor m).

Definition with_listener (v : option Listener) (m : ActivityMonitor) : ActivityMonitor :=
  mkActivityMonitor
    (activity_state m) (activity_state_manual m)
    (noise_threshold m) (activity_threshold m) (idle_threshold m) (sensitivity m)
    (first_action_time m) (last_action_time m)
    (prev_x m) (prev_y m) (button_is_pressed m)
    v (lock m) (input_monitor m).

Definition with_lock (v : nat) (m : ActivityMonitor) : ActivityMonitor :=
  mkActivityMonitor
    (activity_state m) (activity_state_manual m)
    (noise_threshold m) (activity_threshold m) (idle_threshold m) (sensitivity m)
    (first_action_time m) (last_action_time m)
    (prev_x m) (prev_y m) (button_is_pressed m)
    (listener m) v (input_monitor m).

Definition with_input_monitor (v : option IInputMonitor) (m : ActivityMonitor) : ActivityMonitor :=
  mkActivityMonitor
    (activity_state m) (activity_state_manual m)
    (noise_threshold m) (activity_threshold m) (idle_threshold m) (sensitivity m)
    (first_action_time m) (last_action_time m)
    (prev_x m) (prev_y m) (button_is_pressed m)
    (listener m) (lock m) v.

(** ** What a run lets the outside see *)

Inductive Event : Type :=
| EvAction (now : Z)
    (* action_notify was entered and read the clock as [now] *)
| EvListener (l : Listener) (held : nat)
    (* l->action_notify() was called while the lock was held [held] times *)
| EvPublish (s : ActivityState) (held : nat).
    (* activity_state was published with value [s] *)

Record World : Type := mkWorld {
  self : ActivityMonitor;
  trace : list Event          (* oldest event first *)
}.

(** ** The state monad of the member functions *)

Definition M (A : Type) : Type := World -> A * World.

Definition ret {A : Type} (a : A) : M A := fun w => (a, w).

Definition bind {A B : Type} (c : M A) (k : A -> M B) : M B :=
  fun w => let (a, w') := c w in k a w'.

Notation "x <- c ;; k" := (bind c (fun x => k))
  (at level 61, c at next level, right associativity).
Notation "c ;; k" := (bind c (fun _ => k))
  (at level 61, right associativity).

Definition gets {A : Type} (f : ActivityMonitor -> A) : M A :=
  fun w => (f (self w), w).

Definition modify (f : ActivityMonitor -> ActivityMonitor) : M unit :=
  fun w => (tt, mkWorld (f (self w)) (trace w)).

Definition emit (e : Event) : M unit :=
  fun w => (tt, mkWorld (self w) (trace w ++ [e])).

Definition when (b : bool) (c : M unit) : M unit :=
  if b then c else ret tt.

Definition exec {A : Type} (c : M A) (w : World) : World := snd (c w).
Definition eval {A : Type} (c : M A) (w : World) : A := fst (c w).

(** ** The lock and the traced field *)

(** Modelled from the spec: [Mutex], the class of [lock], is declared outside
    this file. The spec has a single mutual-exclusion lock for the whole
    object. The member functions nest its acquisitions on one thread
    ([keyboard_notify] holds it while [action_notify] and then
    [call_listener] take it again), so a thread that holds it can take it
    again: [lock()] adds one to the number of times the running thread holds
    it, [unlock()] removes one, and the lock is free at 0. *)
Definition lock_lock : M unit := modify (fun m => with_lock (S (lock m)) m).
Definition lock_unlock : M unit := modify (fun m => with_lock (Nat.pred (lock m)) m).

(** Modelled from the spec: the class of the traced field [activity_state] is
    declared outside this file. [activity_state.publish()] hands the current
    value to the subscribers; the trace records the value and how often the
    lock is held at that moment. *)
Definition publish : M unit :=
  s <- gets activity_state ;;
  held <- gets lock ;;
  emit (EvPublish s held).

(** [activity_state = v]: the value is stored, and published at once unless
    the field leaves publication to [publish()]. *)
Definition assign_activity_state (v : ActivityState) : M unit :=
  modify (with_activity_state v) ;;
  manual <- gets activity_state_manual ;;
  when (negb manual) publish.

(** ** The member functions

    [now] is what [g_get_real_time()] returns to the call, [reply] what the
    listener's [action_notify()] returns if the call reaches it. The tracing
    macros and the diagnostics log of [shift_time] leave the object alone and
    are left out. *)

(** The constructor. [decl] is the object as the member initialisers of the
    class declaration leave it, [factory] what
    [InputMonitorFactory::get_monitor] returns. *)
Definition ActivityMonitor_ctor (decl : ActivityMonitor)
    (factory : option IInputMonitor) : ActivityMonitor :=
  let m := with_noise_threshold (int_mul 1 G_USEC_PER_SEC) decl in
  let m := with_activity_threshold (int_mul 2 G_USEC_PER_SEC) m in
  let m := with_idle_threshold (int_mul 5 G_USEC_PER_SEC) m in
  let m := with_input_monitor factory m in
  match input_monitor m with
  | Some im => with_input_monitor (Some (mkIInputMonitor true (terminated im))) m
  | None => m
  end.

Definition terminate : M unit :=
  im <- gets input_monitor ;;
  match im with
  | Some i => modify (with_input_monitor (Some (mkIInputMonitor (subscribed i) true)))
  | None => ret tt
  end.

Definition suspend : M unit :=
  lock_lock ;;
  assign_activity_state ACTIVITY_SUSPENDED ;;
  lock_unlock ;;
  publish.

Definition resume : M unit :=
  lock_lock ;;
  assign_activity_state ACTIVITY_IDLE ;;
  lock_unlock ;;
  publish.

Definition force_idle : M unit :=
  lock_lock ;;
  st <- gets activity_state ;;
  when (negb (ActivityState_eqb st ACTIVITY_SUSPENDED))
    (assign_activity_state ACTIVITY_IDLE ;;
     modify (with_last_action_time 0)) ;;
  lock_unlock ;;
  publish.

Definition get_current_state (now : Z) : M ActivityState :=
  lock_lock ;;
  st <- gets activity_state ;;
  when (ActivityState_eqb st ACTIVITY_ACTIVE)
    (last <- gets last_action_time ;;
     idle <- gets idle_threshold ;;
     let tv := gint64_sub now last in
     when (idle <? tv) (assign_activity_state ACTIVITY_IDLE)) ;;
  lock_unlock ;;
  publish ;;
  gets activity_state.

Definition set_parameters (noise activity idle sens : Z) : M unit :=
  modify (with_noise_threshold (int_mul noise 1000)) ;;
  modify (with_activity_threshold (int_mul activity 1000)) ;;
  modify (with_idle_threshold (int_mul idle 1000)) ;;
  modify (with_sensitivity sens) ;;
  assign_activity_state ACTIVITY_IDLE.

(* the four reference parameters, as a tuple: noise, activity, idle, sensitivity *)
Definition get_parameters : M (Z * Z * Z * Z) :=
  n <- gets noise_threshold ;;
  a <- gets activity_threshold ;;
  i <- gets idle_threshold ;;
  s <- gets sensitivity ;;
  ret (int_of (gint64_div n 1000), int_of (gint64_div a 1000),
       int_of (gint64_div i 1000), s).

Definition shift_time (delta : Z) : M unit :=
  let d := int_mul delta G_USEC_PER_SEC in
  lock_lock ;;
  last <- gets last_action_time ;;
  when (negb (last =? 0)) (modify (with_last_action_time (gint64_add last d))) ;;
  first <- gets first_action_time ;;
  when (negb (first =? 0)) (modify (with_first_action_time (gint64_add first d))) ;;
  lock_unlock.

Definition set_listener (l : option Listener) : M unit :=
  lock_lock ;;
  modify (with_listener l) ;;
  lock_unlock.

Definition call_listener (reply : bool) : M unit :=
  lock_lock ;;
  l <- gets listener ;;
  lock_unlock ;;
  match l with
  | Some p =>
      held <- gets lock ;;
      emit (EvListener p held) ;;
      when (negb reply)
        (lock_lock ;;
         modify (with_listener None) ;;
         lock_unlock)
  | None => ret tt
  end.

Definition action_notify (now : Z) (reply : bool) : M unit :=
  lock_lock ;;
  emit (EvAction now) ;;
  st <- gets activity_state ;;
  match st with
  | ACTIVITY_IDLE =>
      modify (with_first_action_time now) ;;
      modify (with_last_action_time now) ;;
      at_ <- gets activity_threshold ;;
      if at_ =? 0
      then assign_activity_state ACTIVITY_ACTIVE
      else assign_activity_state ACTIVITY_NOISE
  | ACTIVITY_NOISE =>
      last <- gets last_action_time ;;
      nt <- gets noise_threshold ;;
      let tv := gint64_sub now last in
      if nt <? tv
      then modify (with_first_action_time now)
      else
        first <- gets first_action_time ;;
        at_ <- gets activity_threshold ;;
        let tv := gint64_sub now first in
        when (at_ <=? tv) (assign_activity_state ACTIVITY_ACTIVE)
  | _ => ret tt
  end ;;
  modify (with_last_action_time now) ;;
  lock_unlock ;;
  call_listener reply.

Definition mouse_notify (x y wheel_delta : Z) (now : Z) (reply : bool) : M unit :=
  lock_lock ;;
  px <- gets prev_x ;;
  py <- gets prev_y ;;
  let delta_x := int_sub x px in
  let delta_y := int_sub y py in
  modify (with_prev_x x) ;;
  modify (with_prev_y y) ;;
  sens <- gets sensitivity ;;
  pressed <- gets button_is_pressed ;;
  when ((sens <=? int_abs delta_x) || (sens <=? int_abs delta_y)
        || negb (wheel_delta =? 0) || pressed)
    (action_notify now reply) ;;
  lock_unlock.

Definition button_notify (is_press : bool) (now : Z) (reply : bool) : M unit :=
  lock_lock ;;
  modify (with_button_is_pressed is_press) ;;
  when is_press (action_notify now reply) ;;
  lock_unlock.

Definition keyboard_notify (repeat : bool) (now : Z) (reply : bool) : M unit :=
  lock_lock ;;
  action_notify now reply ;;
  lock_unlock.

(** ** Runs of the monitor

    What the input monitor delivers ([Input]) and what the rest of the
    program calls ([Op]); a run of the monitor is a list of operations. *)

Inductive Input : Type :=
| InAction
| InMouse (x y wheel_delta : Z)
| InButton (is_press : bool)
| InKeyboard (repeat : bool).

Inductive Op : Type :=
| OpInput (i : Input) (now : Z) (reply : bool)
| OpTerminate
| OpSuspend
| OpResume
| OpForceIdle
| OpGetCurrentState (now : Z)
| OpSetParameters (noise activity idle sens : Z)
| OpGetParameters
| OpShiftTime (delta : Z)
| OpSetListener (l : option Listener).

Definition run_input (i : Input) (now : Z) (reply : bool) : M unit :=
  match i with
  | InAction => action_notify now reply
  | InMouse x y wheel_delta => mouse_notify x y wheel_delta now reply
  | InButton is_press => button_notify is_press now reply
  | InKeyboard repeat => keyboard_notify repeat now reply
  end.

Definition run_op (o : Op) : M unit :=
  match o with
  | OpInput i now reply => run_input i now reply
  | OpTerminate => terminate
  | OpSuspend => suspend
  | OpResume => resume
  | OpForceIdle => force_idle
  | OpGetCurrentState now => _ <- get_current_state now ;; ret tt
  | OpSetParameters n a i s => set_parameters n a i s
  | OpGetParameters => _ <- get_parameters ;; ret tt
  | OpShiftTime delta => shift_time delta
  | OpSetListener l => set_listener l
  end.

Fixpoint run_ops (ops : list Op) : M unit :=
  match ops with
  | [] => ret tt
  | o :: rest => run_op o ;; run_ops rest
  end.

Definition is_set_listener (o : Op) : bool :=
  match o with OpSetListener _ => true | _ => false end.

Definition is_set_parameters (o : Op) : bool :=
  match o with OpSetParameters _ _ _ _ => true | _ => false end.

(** Readings of a trace. *)

(* the clock values of the actions registered, oldest first *)
Fixpoint actions (tr : list Event) : list Z :=
  match tr with
  | [] => []
  | EvAction now :: rest => now :: actions rest
  | _ :: rest => actions rest
  end.

(* the listeners called, oldest first *)
Fixpoint listener_calls (tr : list Event) : list Listener :=
  match tr with
  | [] => []
  | EvListener l _ :: rest => l :: listener_calls rest
  | _ :: rest => listener_calls rest
  end.

(* the number of times the lock was held at each call of a listener *)
Fixpoint listener_holds (tr : list Event) : list nat :=
  match tr with
  | [] => []
  | EvListener _ held :: rest => held :: listener_holds rest
  | _ :: rest => listener_holds rest
  end.

(* the state values published, oldest first *)
Fixpoint published (tr : list Event) : list ActivityState :=
  match tr with
  | [] => []
  | EvPublish s _ :: rest => s :: published rest
  | _ :: rest => published rest
  end.

(** Sample objects, used to run the member functions on concrete inputs:
    Idle, both timestamps unset, no listener, the lock free. The field of
    [declared_sample] leaves publication to [publish()], so that its traces
    show the calls of [publish()] only; [declared_publishing] is the same
    object with a field that publishes on write. *)

Definition declared_sample : ActivityMonitor :=
  mkActivityMonitor ACTIVITY_IDLE true 0 0 0 3 0 0 0 0 false None 0%nat None.

Definition world_new : World :=
  mkWorld (ActivityMonitor_ctor declared_sample None) [].

Definition world_in (s : ActivityState) (first last : Z) (l : option Listener) : World :=
  mkWorld
    (with_listener l
       (with_last_action_time last
          (with_first_action_time first
             (with_activity_state s (self world_new)))))
    [].

(** The events of a computation end with the publication of the state it
    leaves stored, made with the lock as free as before the computation. *)
Definition publishes_result {A : Type} (c : M A) (w : World) : Prop :=
  exists evs : list Event,
    trace (exec c w) =
    trace w ++ evs ++ [EvPublish (activity_state (self (exec c w))) (lock (self w))].




(** ** Running the member functions symbolically *)

Ltac unfold_members :=
  unfold run_op, run_input, keyboard_notify, button_notify, mouse_notify,
    action_notify, call_listener, set_listener, shift_time, get_parameters,
    set_parameters, get_current_state, force_idle, resume, suspend, terminate,
    assign_activity_state, publish, lock_unlock, lock_lock.

Ltac unfold_monad :=
  unfold exec, eval, when, bind, gets, modify, emit, ret.

Ltac run := unfold_members; unfold_monad; cbn.

Ltac split_cases :=
  repeat (cbn in *;
          match goal with
          | |- context [if ?b then _ else _] => destruct b eqn:?
          | |- context [match ?x with Some _ => _ | None => _ end] => destruct x eqn:?
          end);
  cbn in *.

(* a world whose object is given field by field *)
Ltac open_world w :=
  let m := fresh "m" in
  let tr := fresh "tr" in
  destruct w as [m tr]; destruct m; cbn in *.

(** ** Vocabulary of the properties of whole runs *)

(** The operations that can change a stored state [s]: the table read off
    the assignments to [activity_state] in the member functions. *)
Definition may_change (s : ActivityState) (o : Op) : bool :=
  match o with
  | OpInput _ _ _ =>
      match s with ACTIVITY_IDLE | ACTIVITY_NOISE => true | _ => false end
  | OpSuspend => negb (ActivityState_eqb s ACTIVITY_SUSPENDED)
  | OpResume => negb (ActivityState_eqb s ACTIVITY_IDLE)
  | OpForceIdle =>
      match s with ACTIVITY_NOISE | ACTIVITY_ACTIVE => true | _ => false end
  | OpGetCurrentState _ => ActivityState_eqb s ACTIVITY_ACTIVE
  | OpSetParameters _ _ _ _ => negb (ActivityState_eqb s ACTIVITY_IDLE)
  | _ => false
  end.

(** Actions delivered by [action_notify] at the given clock values, each with
    the answer its listener call would get. *)
Definition action_ops (ts : list (Z * bool)) : list Op :=
  map (fun tr => OpInput InAction (fst tr) (snd tr)) ts.

(* every clock value is at least the one before and at most [noise] later *)
Fixpoint within_gaps (noise prev : Z) (ts : list Z) : bool :=
  match ts with
  | [] => true
  | t :: rest => (0 <=? t - prev) && (t - prev <=? noise) && within_gaps noise t rest
  end.

Fixpoint last_time (prev : Z) (ts : list Z) : Z :=
  match ts with
  | [] => prev
  | t :: rest => last_time t rest
  end.

(** The operations that store Idle when the stored state is [s]. *)
Definition resets_to_idle (s : ActivityState) (o : Op) : bool :=
  match o with
  | OpResume | OpSetParameters _ _ _ _ => true
  | OpForceIdle => negb (ActivityState_eqb s ACTIVITY_SUSPENDED)
  | _ => false
  end.

(** ** Tactics for runs of several operations *)

Ltac each_op o :=
  let i := fresh "i" in
  destruct o as [i ? ? | | | | | ? | ? ? ? ? | | ? | ?]; [destruct i |..].

(* every flag, state and listener of the context by cases, before the run *)
Ltac concretize :=
  repeat match goal with
         | b : bool |- _ => destruct b
         | s : ActivityState |- _ => destruct s
         | l : option Listener |- _ => destruct l
         end.

(* the run of a member function, reduced to its normal form *)
Ltac reduce_run :=
  lazy beta iota zeta delta
    [fst snd self trace activity_state activity_state_manual noise_threshold
     activity_threshold idle_threshold sensitivity first_action_time
     last_action_time prev_x prev_y button_is_pressed listener lock input_monitor
     with_activity_state with_noise_threshold with_activity_threshold
     with_idle_threshold with_sensitivity with_first_action_time
     with_last_action_time with_prev_x with_prev_y with_button_is_pressed
     with_listener with_lock with_input_monitor subscribed terminated
     ActivityState_eqb negb Nat.pred].

Ltac run_all := unfold_members; unfold_monad; reduce_run.

(* the tests left in the goal after the run, by cases *)
Ltac split_ifs :=
  repeat (match goal with
          | |- context [if ?b then _ else _] => destruct b
          | |- context [match ?x with Some _ => _ | None => _ end] => destruct x
          end;
          reduce_run).

(** * Properties *)

(** ** Arithmetic that does not overflow *)

Lemma int_of_fits (z : Z) : fits_int z -> int_of z = z.
Proof.
  unfold fits_int, fits, int_of, wrap.
  change (2 ^ (32 - 1)) with 2147483648. change (2 ^ 32) with 4294967296.
  intros H. rewrite Z.mod_small; lia.
Qed.

Lemma gint64_of_fits (z : Z) : fits_gint64 z -> gint64_of z = z.
Proof.
  unfold fits_gint64, fits, gint64_of, wrap.
  change (2 ^ (64 - 1)) with 9223372036854775808.
  change (2 ^ 64) with 18446744073709551616.
  intros H. rewrite Z.mod_small; lia.
Qed.

Lemma gint64_sub_fits (a b : Z) : fits_gint64 (a - b) -> gint64_sub a b = a - b.
Proof. apply gint64_of_fits. Qed.

Lemma gint64_add_fits (a b : Z) : fits_gint64 (a + b) -> gint64_add a b = a + b.
Proof. apply gint64_of_fits. Qed.

Lemma int_sub_fits (a b : Z) : fits_int (a - b) -> int_sub a b = a - b.
Proof. apply int_of_fits. Qed.

Lemma int_mul_fits (a b : Z) : fits_int (a * b) -> int_mul a b = a * b.
Proof. apply int_of_fits. Qed.

Lemma int_abs_fits (a : Z) :
  - 2 ^ 31 < a < 2 ^ 31 -> int_abs a = Z.abs a.
Proof.
  intros H. apply int_of_fits. unfold fits_int, fits.
  change (2 ^ (32 - 1)) with (2 ^ 31). lia.
Qed.

(** ** The transition table of [action_notify] *)

(** The burst of the specification: thresholds of 1 s, 2 s and 5 s, key
    presses at 0, 900, 1800 and 2700 ms. The monitor is in Noise after the
    third and Active after the fourth. *)
Example keyboard_burst :
  let keys t := OpInput (InKeyboard false) t true in
  activity_state (self (exec (run_ops [keys 0; keys 900000; keys 1800000]) world_new))
  = ACTIVITY_NOISE /\
  activity_state
    (self (exec (run_ops [keys 0; keys 900000; keys 1800000; keys 2700000]) world_new))
  = ACTIVITY_ACTIVE.
Proof. vm_compute. split; reflexivity. Qed.

(** C2. An action that arrives at [now] while the state is Idle sets both
    [first_action_time] and [last_action_time] to [now], and the state becomes
    Active when [activity_threshold] is 0 and Noise otherwise. *)
Theorem action_notify_idle (w : World) (now : Z) (reply : bool) :
  activity_state (self w) = ACTIVITY_IDLE ->
  let w' := exec (action_notify now reply) w in
  first_action_time (self w') = now /\
  last_action_time (self w') = now /\
  activity_state (self w') =
    (if activity_threshold (self w) =? 0 then ACTIVITY_ACTIVE else ACTIVITY_NOISE).
Proof.
  open_world w. intros ->. run. split_cases; auto.
Qed.

(** C1. An action that arrives at [now] while the state is Noise: when
    [now - last_action_time] exceeds [noise_threshold] the state stays Noise
    and [first_action_time] becomes [now]; otherwise the state becomes Active
    when [now - first_action_time] is at least [activity_threshold] and stays
    Noise when it is less; in every case [last_action_time] becomes [now].
    The two differences are taken in [gint64] and are assumed not to
    overflow. *)
Theorem action_notify_noise (w : World) (now : Z) (reply : bool) :
  activity_state (self w) = ACTIVITY_NOISE ->
  fits_gint64 (now - last_action_time (self w)) ->
  fits_gint64 (now - first_action_time (self w)) ->
  let m := self w in
  let w' := exec (action_notify now reply) w in
  (now - last_action_time m > noise_threshold m ->
   activity_state (self w') = ACTIVITY_NOISE /\
   first_action_time (self w') = now) /\
  (now - last_action_time m <= noise_threshold m ->
   now - first_action_time m >= activity_threshold m ->
   activity_state (self w') = ACTIVITY_ACTIVE) /\
  (now - last_action_time m <= noise_threshold m ->
   now - first_action_time m < activity_threshold m ->
   activity_state (self w') = ACTIVITY_NOISE) /\
  last_action_time (self w') = now.
Proof.
  open_world w. intros -> Hl Hf. run.
  split_cases; rewrite ?gint64_sub_fits in * by assumption;
    repeat split; intros; auto; lia.
Qed.

Lemma action_notify_idle_witness :
  let w := world_in ACTIVITY_IDLE 0 0 None in
  let w' := exec (action_notify 5 true) w in
  activity_state (self w) = ACTIVITY_IDLE /\
  first_action_time (self w') = 5 /\
  last_action_time (self w') = 5 /\
  activity_state (self w') = ACTIVITY_NOISE.
Proof.
  split; [reflexivity |].
  exact (action_notify_idle (world_in ACTIVITY_IDLE 0 0 None) 5 true eq_refl).
Defined.

Lemma fits_gint64_small (z : Z) : - 2 ^ 62 <= z <= 2 ^ 62 -> fits_gint64 z.
Proof. unfold fits_gint64, fits. change (2 ^ (64 - 1)) with (2 * 2 ^ 62). lia. Qed.

Lemma action_notify_noise_witness :
  let w := world_in ACTIVITY_NOISE 1000000 2500000 None in
  let w' := exec (action_notify 3200000 true) w in
  activity_state (self w) = ACTIVITY_NOISE /\
  3200000 - 2500000 <= noise_threshold (self w) /\
  3200000 - 1000000 >= activity_threshold (self w) /\
  activity_state (self w') = ACTIVITY_ACTIVE /\
  last_action_time (self w') = 3200000.
Proof.
  assert (Hl : fits_gint64 (3200000 - 2500000)) by (apply fits_gint64_small; lia).
  assert (Hf : fits_gint64 (3200000 - 1000000)) by (apply fits_gint64_small; lia).
  pose proof (action_notify_noise (world_in ACTIVITY_NOISE 1000000 2500000 None)
                3200000 true eq_refl Hl Hf) as H.
  cbv zeta in H. destruct H as (_ & Hactive & _ & Hlast).
  split; [reflexivity |].
  split; [cbn; lia |].
  split; [cbn; lia |].
  split; [apply Hactive; cbn; lia | exact Hlast].
Defined.

(** C4, as the code has it. An action that arrives at [now] while the state
    is Suspended leaves the state Suspended and [first_action_time] as it
    was, and sets [last_action_time] to [now]. *)
Theorem action_notify_suspended (w : World) (now : Z) (reply : bool) :
  activity_state (self w) = ACTIVITY_SUSPENDED ->
  let w' := exec (action_notify now reply) w in
  activity_state (self w') = ACTIVITY_SUSPENDED /\
  first_action_time (self w') = first_action_time (self w) /\
  last_action_time (self w') = now.
Proof.
  open_world w. intros ->. run. split_cases; auto.
Qed.

Lemma action_notify_suspended_witness :
  let w := world_in ACTIVITY_SUSPENDED 0 0 None in
  let w' := exec (action_notify 7 true) w in
  activity_state (self w) = ACTIVITY_SUSPENDED /\
  activity_state (self w') = ACTIVITY_SUSPENDED /\
  first_action_time (self w') = 0 /\
  last_action_time (self w') = 7.
Proof.
  split; [reflexivity |].
  exact (action_notify_suspended (world_in ACTIVITY_SUSPENDED 0 0 None) 7 true eq_refl).
Defined.

(** C4 as stated fails: an action at time 7 on a suspended monitor whose
    [last_action_time] is unset leaves the state and [first_action_time]
    alone but moves [last_action_time] to 7. *)
Lemma action_notify_suspended_moves_last_action_time :
  let w := world_in ACTIVITY_SUSPENDED 0 0 None in
  let w' := exec (action_notify 7 true) w in
  activity_state (self w) = ACTIVITY_SUSPENDED /\
  ~ (activity_state (self w') = ACTIVITY_SUSPENDED /\
     first_action_time (self w') = first_action_time (self w) /\
     last_action_time (self w') = last_action_time (self w)).
Proof.
  split; [reflexivity |]. intros (_ & _ & H). vm_compute in H. discriminate H.
Qed.

(** ** The lazy idle check of [get_current_state] *)

(** C3. A call of [get_current_state] at [now]: when the state is Active and
    [now - last_action_time] exceeds [idle_threshold], Idle is stored and
    returned; when the state is Active and the difference is at most
    [idle_threshold], Active is returned and stays stored; in any other state
    the stored state is returned and stays stored. The difference is taken in
    [gint64] and is assumed not to overflow. *)
Theorem get_current_state_lazy_idle (w : World) (now : Z) :
  fits_gint64 (now - last_action_time (self w)) ->
  let m := self w in
  let r := eval (get_current_state now) w in
  let w' := exec (get_current_state now) w in
  (activity_state m = ACTIVITY_ACTIVE ->
   now - last_action_time m > idle_threshold m ->
   activity_state (self w') = ACTIVITY_IDLE /\ r = ACTIVITY_IDLE) /\
  (activity_state m = ACTIVITY_ACTIVE ->
   now - last_action_time m <= idle_threshold m ->
   activity_state (self w') = ACTIVITY_ACTIVE /\ r = ACTIVITY_ACTIVE) /\
  (activity_state m <> ACTIVITY_ACTIVE ->
   activity_state (self w') = activity_state m /\ r = activity_state m).
Proof.
  open_world w. intros Hl. run.
  destruct activity_state0; cbn;
    split_cases; rewrite ?gint64_sub_fits in * by assumption;
    repeat split; intros; auto; try congruence; lia.
Qed.

Lemma get_current_state_lazy_idle_witness :
  let w := world_in ACTIVITY_ACTIVE 0 0 None in
  fits_gint64 (6000000 - last_action_time (self w)) /\
  activity_state (self (exec (get_current_state 6000000) w)) = ACTIVITY_IDLE /\
  eval (get_current_state 6000000) w = ACTIVITY_IDLE.
Proof.
  assert (Hf : fits_gint64 (6000000 - last_action_time (self (world_in ACTIVITY_ACTIVE 0 0 None))))
    by (apply fits_gint64_small; cbn; lia).
  split; [exact Hf |].
  pose proof (get_current_state_lazy_idle (world_in ACTIVITY_ACTIVE 0 0 None) 6000000 Hf) as H.
  cbv zeta in H. destruct H as (Hidle & _ & _).
  apply Hidle; [reflexivity | cbn; lia].
Defined.

(** ** Readings of a trace extended by later events *)

Lemma actions_app (t1 t2 : list Event) : actions (t1 ++ t2) = actions t1 ++ actions t2.
Proof.
  induction t1 as [| e t1 IH]; cbn; [reflexivity |].
  destruct e; cbn; rewrite IH; reflexivity.
Qed.

Lemma listener_calls_app (t1 t2 : list Event) :
  listener_calls (t1 ++ t2) = listener_calls t1 ++ listener_calls t2.
Proof.
  induction t1 as [| e t1 IH]; cbn; [reflexivity |].
  destruct e; cbn; rewrite IH; reflexivity.
Qed.

Lemma published_app (t1 t2 : list Event) :
  published (t1 ++ t2) = published t1 ++ published t2.
Proof.
  induction t1 as [| e t1 IH]; cbn; [reflexivity |].
  destruct e; cbn; rewrite IH; reflexivity.
Qed.

Lemma listener_holds_app (t1 t2 : list Event) :
  listener_holds (t1 ++ t2) = listener_holds t1 ++ listener_holds t2.
Proof.
  induction t1 as [| e t1 IH]; cbn; [reflexivity |].
  destruct e; cbn; rewrite IH; reflexivity.
Qed.

Create Rewrite HintDb trace_db.
#[local] Hint Rewrite <- app_assoc : trace_db.
#[local] Hint Rewrite actions_app listener_calls_app listener_holds_app published_app
  app_nil_r : trace_db.

Ltac trace_simpl := autorewrite with trace_db; cbn.

(** ** The debounce of [mouse_notify] *)

(** C5. A call [mouse_notify(x, y, wheel_delta)] with [dx = x - prev_x] and
    [dy = y - prev_y] always stores [(x, y)] in [prev_x], [prev_y]. When
    [|dx|] and [|dy|] are below [sensitivity], [wheel_delta] is 0 and no
    button is held, no action is registered (nothing but the stored position
    changes); when [|dx| >= sensitivity], or [|dy| >= sensitivity], or
    [wheel_delta] is not 0, or a button is held, exactly one action is
    registered, and the object ends as one [action_notify] leaves it. The
    differences are taken in [int] and are assumed not to overflow. *)
Theorem mouse_notify_debounce (w : World) (x y wheel_delta now : Z) (reply : bool) :
  - 2 ^ 31 < x - prev_x (self w) < 2 ^ 31 ->
  - 2 ^ 31 < y - prev_y (self w) < 2 ^ 31 ->
  let m := self w in
  let dx := x - prev_x m in
  let dy := y - prev_y m in
  let moved := mkWorld (with_prev_y y (with_prev_x x m)) (trace w) in
  let w' := exec (mouse_notify x y wheel_delta now reply) w in
  prev_x (self w') = x /\
  prev_y (self w') = y /\
  (Z.abs dx < sensitivity m -> Z.abs dy < sensitivity m -> wheel_delta = 0 ->
   button_is_pressed m = false ->
   actions (trace w') = actions (trace w) /\ w' = moved) /\
  (Z.abs dx >= sensitivity m \/ Z.abs dy >= sensitivity m \/ wheel_delta <> 0 \/
   button_is_pressed m = true ->
   actions (trace w') = actions (trace w) ++ [now] /\
   self w' = self (exec (action_notify now reply) moved)).
Proof.
  open_world w. intros Hx Hy.
  assert (Hfx : fits_int (x - prev_x0))
    by (unfold fits_int, fits; change (2 ^ (32 - 1)) with (2 ^ 31); lia).
  assert (Hfy : fits_int (y - prev_y0))
    by (unfold fits_int, fits; change (2 ^ (32 - 1)) with (2 ^ 31); lia).
  run.
  rewrite (int_sub_fits _ _ Hfx), (int_sub_fits _ _ Hfy).
  rewrite (int_abs_fits _ Hx), (int_abs_fits _ Hy).
  destruct ((sensitivity0 <=? Z.abs (x - prev_x0))
            || (sensitivity0 <=? Z.abs (y - prev_y0))
            || negb (wheel_delta =? 0) || button_is_pressed0) eqn:Hact.
  - repeat rewrite orb_true_iff in Hact.
    rewrite negb_true_iff, Z.eqb_neq, !Z.leb_le in Hact.
    destruct activity_state0; split_cases; trace_simpl;
      (split; [reflexivity |]); (split; [reflexivity |]);
      (split; [intros; subst; try discriminate; lia |]);
      intros _; split; reflexivity.
  - repeat rewrite orb_false_iff in Hact.
    rewrite negb_false_iff, Z.eqb_eq, !Z.leb_gt in Hact.
    cbn. split; [reflexivity |]. split; [reflexivity |]. split.
    + intros; split; reflexivity.
    + intros H; exfalso. destruct Hact as (((? & ?) & ?) & Hb).
      destruct H as [H | [H | [H | H]]]; try lia; congruence.
Qed.

Lemma mouse_notify_debounce_witness :
  let w := world_in ACTIVITY_IDLE 0 0 None in
  let still := exec (mouse_notify 2 (-2) 0 50 true) w in
  let moved := exec (mouse_notify 3 0 0 50 true) w in
  (- 2 ^ 31 < 3 - prev_x (self w) < 2 ^ 31) /\
  (- 2 ^ 31 < 0 - prev_y (self w) < 2 ^ 31) /\
  actions (trace still) = [] /\
  actions (trace moved) = [50] /\
  prev_x (self still) = 2 /\ prev_y (self still) = -2 /\
  prev_x (self moved) = 3 /\ prev_y (self moved) = 0.
Proof.
  assert (Hx2 : - 2 ^ 31 < 2 - prev_x (self (world_in ACTIVITY_IDLE 0 0 None)) < 2 ^ 31)
    by (cbn; lia).
  assert (Hy2 : - 2 ^ 31 < -2 - prev_y (self (world_in ACTIVITY_IDLE 0 0 None)) < 2 ^ 31)
    by (cbn; lia).
  assert (Hx3 : - 2 ^ 31 < 3 - prev_x (self (world_in ACTIVITY_IDLE 0 0 None)) < 2 ^ 31)
    by (cbn; lia).
  assert (Hy3 : - 2 ^ 31 < 0 - prev_y (self (world_in ACTIVITY_IDLE 0 0 None)) < 2 ^ 31)
    by (cbn; lia).
  pose proof (mouse_notify_debounce (world_in ACTIVITY_IDLE 0 0 None)
                2 (-2) 0 50 true Hx2 Hy2) as Hs.
  pose proof (mouse_notify_debounce (world_in ACTIVITY_IDLE 0 0 None)
                3 0 0 50 true Hx3 Hy3) as Hm.
  cbv zeta in Hs, Hm.
  destruct Hs as (Hsx & Hsy & Hstill & _).
  destruct Hm as (Hmx & Hmy & _ & Hmoved).
  split; [exact Hx3 |]. split; [exact Hy3 |].
  split.
  { apply Hstill; [cbn; lia | cbn; lia | reflexivity | reflexivity]. }
  split.
  { apply Hmoved. left. cbn. lia. }
  split; [exact Hsx |]. split; [exact Hsy |]. split; [exact Hmx | exact Hmy].
Defined.


(** ** The listener and the lock *)

(** When the input monitor calls [action_notify] itself, the listener is
    called with the lock as free as it was before the call. *)
Lemma action_notify_calls_listener_unlocked (w : World) (l : Listener)
    (now : Z) (reply : bool) :
  listener (self w) = Some l ->
  listener_holds (trace (exec (action_notify now reply) w)) =
  listener_holds (trace w) ++ [lock (self w)].
Proof.
  open_world w. intros ->. run.
  destruct activity_state0; split_cases; trace_simpl; reflexivity.
Qed.

(** [keyboard_notify] takes the lock before it calls [action_notify] and
    releases it after: the listener is called while the lock is held once
    more than before the call. *)
Lemma keyboard_notify_calls_listener_locked (w : World) (l : Listener)
    (repeat : bool) (now : Z) (reply : bool) :
  listener (self w) = Some l ->
  listener_holds (trace (exec (keyboard_notify repeat now reply) w)) =
  listener_holds (trace w) ++ [S (lock (self w))].
Proof.
  open_world w. intros ->. run.
  destruct activity_state0; split_cases; trace_simpl; reflexivity.
Qed.

(** C6 fails on the code. A key press delivered to a monitor with listener 7
    and a free lock: the listener is called while [keyboard_notify] still
    holds the lock (hold count 1), and the same holds for a button press and
    for a mouse move of 5 pixels; only [action_notify] called by the input
    monitor itself calls the listener with the lock free (hold count 0). *)
Theorem listener_called_with_lock_held :
  let w := world_in ACTIVITY_IDLE 0 0 (Some 7%nat) in
  lock (self w) = 0%nat /\
  trace (exec (keyboard_notify false 10 true) w) = [EvAction 10; EvListener 7%nat 1] /\
  trace (exec (button_notify true 10 true) w) = [EvAction 10; EvListener 7%nat 1] /\
  trace (exec (mouse_notify 5 0 0 10 true) w) = [EvAction 10; EvListener 7%nat 1] /\
  trace (exec (action_notify 10 true) w) = [EvAction 10; EvListener 7%nat 0].
Proof. vm_compute. repeat split. Qed.

(** ** Publication of the state *)

(** Each of [suspend], [resume], [force_idle] and [get_current_state]
    publishes, after it has released the lock, the state value it leaves
    stored, whatever the mode of the field. *)
Theorem publishing_operations (w : World) (now : Z) :
  publishes_result suspend w /\
  publishes_result resume w /\
  publishes_result force_idle w /\
  publishes_result (get_current_state now) w.
Proof.
  unfold publishes_result. open_world w. run.
  repeat split; destruct activity_state0; split_cases;
    rewrite <- ?app_assoc; cbn;
    solve [ exists []; reflexivity | eexists [_]; reflexivity ].
Qed.



(** ** [shift_time] *)

(** C8, as the code has it. For a shift [delta] whose number of microseconds
    [delta * 1000000] fits [int], and timestamps that do not leave [gint64]:
    each of [first_action_time] and [last_action_time] that is not 0 is
    increased by [delta * 1000000], each that is 0 stays 0, and the gap
    between the two is preserved when both are set or both are unset. *)
Theorem shift_time_timestamps (w : World) (delta : Z) :
  fits_int (delta * G_USEC_PER_SEC) ->
  fits_gint64 (first_action_time (self w) + delta * 1000000) ->
  fits_gint64 (last_action_time (self w) + delta * 1000000) ->
  let m := self w in
  let m' := self (exec (shift_time delta) w) in
  first_action_time m' =
    (if first_action_time m =? 0 then 0 else first_action_time m + delta * 1000000) /\
  last_action_time m' =
    (if last_action_time m =? 0 then 0 else last_action_time m + delta * 1000000) /\
  ((first_action_time m = 0 <-> last_action_time m = 0) ->
   last_action_time m' - first_action_time m' =
   last_action_time m - first_action_time m).
Proof.
  open_world w. intros Hd Hf Hl. run.
  rewrite (int_mul_fits _ _ Hd). unfold G_USEC_PER_SEC.
  destruct (first_action_time0 =? 0) eqn:Ef; destruct (last_action_time0 =? 0) eqn:El;
    cbn; rewrite ?Ef, ?El; cbn;
    rewrite ?gint64_add_fits by assumption;
    rewrite ?Z.eqb_eq, ?Z.eqb_neq in *;
    repeat split; try lia; intros; lia.
Qed.

Lemma shift_time_timestamps_witness :
  let w := world_in ACTIVITY_NOISE 4000000 4500000 None in
  let m' := self (exec (shift_time 60) w) in
  fits_int (60 * G_USEC_PER_SEC) /\
  first_action_time m' = 64000000 /\
  last_action_time m' = 64500000.
Proof.
  assert (Hd : fits_int (60 * G_USEC_PER_SEC))
    by (unfold fits_int, fits, G_USEC_PER_SEC; cbn; lia).
  assert (Hf : fits_gint64 (4000000 + 60 * 1000000)) by (apply fits_gint64_small; lia).
  assert (Hl : fits_gint64 (4500000 + 60 * 1000000)) by (apply fits_gint64_small; lia).
  pose proof (shift_time_timestamps (world_in ACTIVITY_NOISE 4000000 4500000 None)
                60 Hd Hf Hl) as H.
  cbv zeta in H. destruct H as (H1 & H2 & _).
  split; [exact Hd |]. split; [exact H1 | exact H2].
Defined.

(** C8 as stated fails. After an action at time 5 and [force_idle], a monitor
    built by the constructor has [first_action_time = 5] and
    [last_action_time] unset; [shift_time(1)] then moves the first and leaves
    the second, and the gap between them changes from -5 to -1000005. *)
Lemma shift_time_changes_gap :
  let w := exec (run_ops [OpInput InAction 5 true; OpForceIdle]) world_new in
  let w' := exec (shift_time 1) w in
  first_action_time (self w) = 5 /\
  last_action_time (self w) = 0 /\
  first_action_time (self w') = 1000005 /\
  last_action_time (self w') = 0 /\
  last_action_time (self w') - first_action_time (self w')
  <> last_action_time (self w) - first_action_time (self w).
Proof. vm_compute. repeat split. discriminate. Qed.

(** The product [delta * G_USEC_PER_SEC] is taken in [int] before it is
    widened: a shift of one hour moves a timestamp back by about 695
    seconds. *)
Lemma shift_time_one_hour :
  let w := world_in ACTIVITY_ACTIVE 1700000000000000 1700000000000000 None in
  last_action_time (self (exec (shift_time 3600) w)) = 1700000000000000 - 694967296.
Proof. vm_compute. reflexivity. Qed.

(** ** Running a list of operations *)

Lemma exec_run_ops_cons (o : Op) (ops : list Op) (w : World) :
  exec (run_ops (o :: ops)) w = exec (run_ops ops) (exec (run_op o) w).
Proof.
  unfold exec. cbn. unfold bind. destruct (run_op o w) as [u w1]. reflexivity.
Qed.

(** ** The listener protocol *)

(** Without a listener no operation but [set_listener] sets one or calls
    one. *)
Lemma no_listener_step (o : Op) (w : World) :
  is_set_listener o = false ->
  listener (self w) = None ->
  listener (self (exec (run_op o) w)) = None /\
  listener_calls (trace (exec (run_op o) w)) = listener_calls (trace w).
Proof.
  intros Ho. open_world w. intros ->.
  destruct o as [i ? ? | | | | | ? | ? ? ? ? | | ? | ?]; try discriminate Ho;
    [destruct i |..]; run;
    try destruct activity_state0; split_cases; trace_simpl; split; reflexivity.
Qed.

Lemma no_listener_run (ops : list Op) (w : World) :
  forallb (fun o => negb (is_set_listener o)) ops = true ->
  listener (self w) = None ->
  listener (self (exec (run_ops ops) w)) = None /\
  listener_calls (trace (exec (run_ops ops) w)) = listener_calls (trace w).
Proof.
  revert w. induction ops as [| o ops IH]; intros w Hops Hl.
  - split; [exact Hl | reflexivity].
  - cbn in Hops. apply andb_true_iff in Hops. destruct Hops as [Ho Hops].
    apply negb_true_iff in Ho.
    destruct (no_listener_step o w Ho Hl) as [Hl1 Hc1].
    rewrite exec_run_ops_cons.
    destruct (IH _ Hops Hl1) as [Hl2 Hc2].
    split; [exact Hl2 | congruence].
Qed.

(** An input delivered to a monitor with listener [l] either is not
    registered as an action, and then nobody is called and [l] stays; or [l]
    is called once, and kept or dropped by its answer. *)
Lemma run_input_listener (w : World) (l : Listener) (i : Input) (now : Z)
    (reply : bool) :
  listener (self w) = Some l ->
  let w' := exec (run_input i now reply) w in
  (listener_calls (trace w') = listener_calls (trace w) /\
   listener (self w') = Some l) \/
  (listener_calls (trace w') = listener_calls (trace w) ++ [l] /\
   listener (self w') = (if reply then Some l else None)).
Proof.
  open_world w. intros ->.
  destruct i as [| x y wheel_delta | is_press | repeat]; run.
  - right. destruct reply, activity_state0; split_cases; trace_simpl; split; reflexivity.
  - destruct ((sensitivity0 <=? int_abs (int_sub x prev_x0))
              || (sensitivity0 <=? int_abs (int_sub y prev_y0))
              || negb (wheel_delta =? 0) || button_is_pressed0).
    + right. destruct reply, activity_state0; split_cases; trace_simpl;
        split; reflexivity.
    + left. cbn. split; reflexivity.
  - destruct is_press.
    + right. destruct reply, activity_state0; split_cases; trace_simpl;
        split; reflexivity.
    + left. cbn. split; reflexivity.
  - right. destruct reply, activity_state0; split_cases; trace_simpl; split; reflexivity.
Qed.

Lemma snoc_not_self {A : Type} (xs : list A) (x : A) : xs ++ [x] <> xs.
Proof.
  intros H. apply (f_equal (@length A)) in H. rewrite length_app in H. cbn in H. lia.
Qed.

(** C9. When the listener [l] is notified of an action and answers false, the
    listener reference is cleared and no operation that follows, up to the
    next [set_listener], calls a listener; when it answers true, it stays the
    listener. *)
Theorem listener_unsubscribes (w : World) (l : Listener) (i : Input) (now : Z)
    (ops : list Op) :
  listener (self w) = Some l ->
  forallb (fun o => negb (is_set_listener o)) ops = true ->
  let declined := exec (run_input i now false) w in
  let accepted := exec (run_input i now true) w in
  (listener_calls (trace declined) = listener_calls (trace w) ++ [l] ->
   listener (self declined) = None /\
   listener (self (exec (run_ops ops) declined)) = None /\
   listener_calls (trace (exec (run_ops ops) declined)) =
   listener_calls (trace declined)) /\
  listener (self accepted) = Some l.
Proof.
  intros Hl Hops. cbv zeta. split.
  - intros Hcalled.
    destruct (run_input_listener w l i now false Hl) as [[Hc _] | [_ Hd]].
    + rewrite Hc in Hcalled. symmetry in Hcalled.
      destruct (snoc_not_self _ _ Hcalled).
    + destruct (no_listener_run ops _ Hops Hd) as [Hn Hcalls].
      repeat split; assumption.
  - destruct (run_input_listener w l i now true Hl) as [[_ Ha] | [_ Ha]]; exact Ha.
Qed.

Lemma listener_unsubscribes_witness :
  let w := world_in ACTIVITY_IDLE 0 0 (Some 7%nat) in
  let ops := [OpInput InAction 20 true; OpGetCurrentState 30;
              OpInput (InKeyboard false) 40 true] in
  let declined := exec (run_input (InKeyboard false) 10 false) w in
  listener (self w) = Some 7%nat /\
  listener_calls (trace declined) = [7%nat] /\
  listener (self declined) = None /\
  listener_calls (trace (exec (run_ops ops) declined)) = [7%nat] /\
  listener (self (exec (run_input (InKeyboard false) 10 true) w)) = Some 7%nat.
Proof.
  pose proof (listener_unsubscribes (world_in ACTIVITY_IDLE 0 0 (Some 7%nat)) 7%nat
                (InKeyboard false) 10
                [OpInput InAction 20 true; OpGetCurrentState 30;
                 OpInput (InKeyboard false) 40 true]
                eq_refl eq_refl) as H.
  cbv zeta in H. destruct H as (Hdeclined & Haccepted).
  destruct (Hdeclined eq_refl) as (Hnone & _ & Hcalls).
  split; [reflexivity |]. split; [reflexivity |].
  split; [exact Hnone |]. split; [exact Hcalls | exact Haccepted].
Defined.

(** ** The thresholds of a new monitor *)

(** Only [set_parameters] writes the thresholds and the sensitivity. *)
Lemma parameters_step (o : Op) (w : World) :
  is_set_parameters o = false ->
  eval get_parameters (exec (run_op o) w) = eval get_parameters w.
Proof.
  intros Ho. open_world w.
  destruct o as [i ? ? | | | | | ? | ? ? ? ? | | ? | ?]; try discriminate Ho;
    [destruct i |..]; run;
    try destruct activity_state0; split_cases; reflexivity.
Qed.

Lemma parameters_run (ops : list Op) (w : World) :
  forallb (fun o => negb (is_set_parameters o)) ops = true ->
  eval get_parameters (exec (run_ops ops) w) = eval get_parameters w.
Proof.
  revert w. induction ops as [| o ops IH]; intros w Hops; [reflexivity |].
  cbn in Hops. apply andb_true_iff in Hops. destruct Hops as [Ho Hops].
  apply negb_true_iff in Ho.
  rewrite exec_run_ops_cons, (IH _ Hops). apply parameters_step, Ho.
Qed.

(** C10. A monitor fresh from the constructor has [noise_threshold] 1 second,
    [activity_threshold] 2 seconds and [idle_threshold] 5 seconds, in
    microseconds, and [get_parameters] reports 1000, 2000 and 5000
    milliseconds for them until [set_parameters] is called. *)
Theorem constructor_thresholds (decl : ActivityMonitor)
    (factory : option IInputMonitor) (tr : list Event) (ops : list Op) :
  forallb (fun o => negb (is_set_parameters o)) ops = true ->
  let m := ActivityMonitor_ctor decl factory in
  noise_threshold m = 1 * 1000000 /\
  activity_threshold m = 2 * 1000000 /\
  idle_threshold m = 5 * 1000000 /\
  eval get_parameters (mkWorld m tr) = (1000, 2000, 5000, sensitivity decl) /\
  eval get_parameters (exec (run_ops ops) (mkWorld m tr)) =
    (1000, 2000, 5000, sensitivity decl).
Proof.
  intros Hops. cbv zeta.
  assert (Hnew : eval get_parameters (mkWorld (ActivityMonitor_ctor decl factory) tr)
                 = (1000, 2000, 5000, sensitivity decl)).
  { unfold ActivityMonitor_ctor. destruct decl, factory; reflexivity. }
  rewrite (parameters_run ops _ Hops).
  unfold ActivityMonitor_ctor in *.
  destruct decl, factory; repeat split; solve [reflexivity | exact Hnew].
Qed.

Lemma constructor_thresholds_witness :
  let ops := [OpInput (InKeyboard false) 10 true; OpSuspend; OpResume;
              OpGetCurrentState 20; OpShiftTime 5] in
  forallb (fun o => negb (is_set_parameters o)) ops = true /\
  noise_threshold (self world_new) = 1000000 /\
  eval get_parameters (exec (run_ops ops) world_new) = (1000, 2000, 5000, 3).
Proof.
  pose proof (constructor_thresholds declared_sample None []
                [OpInput (InKeyboard false) 10 true; OpSuspend; OpResume;
                 OpGetCurrentState 20; OpShiftTime 5] eq_refl) as H.
  cbv zeta in H. destruct H as (Hn & _ & _ & _ & Hrun).
  split; [reflexivity |]. split; [exact Hn | exact Hrun].
Defined.

(** * Further properties of the member functions *)

(** ** The lock *)

Lemma lock_balanced_step (o : Op) (w : World) :
  lock (self (exec (run_op o) w)) = lock (self w).
Proof.
  open_world w. each_op o; concretize; run_all; split_ifs; reflexivity.
Qed.

(** Every member function releases the lock as often as it takes it: after
    any run of operations the running thread holds the lock as many times as
    before. *)
Theorem lock_balanced (ops : list Op) (w : World) :
  lock (self (exec (run_ops ops) w)) = lock (self w).
Proof.
  revert w. induction ops as [| o ops IH]; intros w; [reflexivity |].
  rewrite exec_run_ops_cons, IH. apply lock_balanced_step.
Qed.

(** ** Which operations change the state *)

Lemma state_frame_step (o : Op) (w : World) :
  may_change (activity_state (self w)) o = false ->
  activity_state (self (exec (run_op o) w)) = activity_state (self w).
Proof.
  open_world w. intros Ho.
  each_op o; concretize; try discriminate Ho; run_all; split_ifs; reflexivity.
Qed.

(** A stored state [s] survives every run made of operations that
    [may_change] does not list for [s]: Suspended is left only by [resume]
    and [set_parameters]; Active only by [suspend], [resume], [force_idle],
    [set_parameters] and [get_current_state]; Noise only by an input,
    [suspend], [resume], [force_idle] and [set_parameters]; Idle only by an
    input and [suspend]. *)
Theorem state_frame (s : ActivityState) (ops : list Op) (w : World) :
  activity_state (self w) = s ->
  forallb (fun o => negb (may_change s o)) ops = true ->
  activity_state (self (exec (run_ops ops) w)) = s.
Proof.
  revert w. induction ops as [| o ops IH]; intros w Hs Hops; [exact Hs |].
  cbn in Hops. apply andb_true_iff in Hops. destruct Hops as [Ho Hops].
  apply negb_true_iff in Ho.
  rewrite exec_run_ops_cons. apply IH; [| exact Hops].
  rewrite state_frame_step; [exact Hs | rewrite Hs; exact Ho].
Qed.

Lemma state_frame_witness :
  let w := world_in ACTIVITY_SUSPENDED 0 0 (Some 7%nat) in
  let ops := [OpInput (InKeyboard false) 10 true; OpInput (InMouse 50 50 1) 20 true;
              OpInput (InButton true) 30 true; OpInput InAction 40 true;
              OpForceIdle; OpGetCurrentState 9000000; OpShiftTime 5; OpSuspend] in
  activity_state (self w) = ACTIVITY_SUSPENDED /\
  activity_state (self (exec (run_ops ops) w)) = ACTIVITY_SUSPENDED.
Proof.
  split; [reflexivity |].
  exact (state_frame ACTIVITY_SUSPENDED
           [OpInput (InKeyboard false) 10 true; OpInput (InMouse 50 50 1) 20 true;
            OpInput (InButton true) 30 true; OpInput InAction 40 true;
            OpForceIdle; OpGetCurrentState 9000000; OpShiftTime 5; OpSuspend]
           (world_in ACTIVITY_SUSPENDED 0 0 (Some 7%nat)) eq_refl eq_refl).
Defined.

(** ** Who installs a listener *)

Lemma listener_step (o : Op) (w : World) :
  is_set_listener o = false ->
  listener (self (exec (run_op o) w)) = listener (self w) \/
  listener (self (exec (run_op o) w)) = None.
Proof.
  intros Ho. open_world w.
  each_op o; try discriminate Ho; concretize; run_all; split_ifs; auto.
Qed.

(** Only [set_listener] installs a listener: a listener found after a run
    without [set_listener] was the listener before the run. *)
Theorem listener_installed_by_set_listener (ops : list Op) (w : World) (l : Listener) :
  forallb (fun o => negb (is_set_listener o)) ops = true ->
  listener (self (exec (run_ops ops) w)) = Some l ->
  listener (self w) = Some l.
Proof.
  revert w. induction ops as [| o ops IH]; intros w Hops Hl; [exact Hl |].
  cbn in Hops. apply andb_true_iff in Hops. destruct Hops as [Ho Hops].
  apply negb_true_iff in Ho.
  rewrite exec_run_ops_cons in Hl. apply (IH _ Hops) in Hl.
  destruct (listener_step o w Ho) as [H | H]; congruence.
Qed.

Lemma listener_installed_by_set_listener_witness :
  let w := world_in ACTIVITY_IDLE 0 0 (Some 7%nat) in
  let ops := [OpInput InAction 10 true; OpSuspend; OpResume; OpGetCurrentState 20] in
  listener (self (exec (run_ops ops) w)) = Some 7%nat /\
  listener (self w) = Some 7%nat.
Proof.
  split; [reflexivity |].
  exact (listener_installed_by_set_listener
           [OpInput InAction 10 true; OpSuspend; OpResume; OpGetCurrentState 20]
           (world_in ACTIVITY_IDLE 0 0 (Some 7%nat)) 7%nat eq_refl eq_refl).
Defined.

(** ** The listener and the lock, for every input *)

(** The hold count of the lock at the listener call of each input: the count
    before the call for [action_notify], one more for the three functions
    that wrap it. *)
Theorem listener_hold_counts (w : World) (l : Listener) (i : Input) (now : Z)
    (reply : bool) :
  listener (self w) = Some l ->
  let w' := exec (run_input i now reply) w in
  let held := match i with InAction => lock (self w) | _ => S (lock (self w)) end in
  (actions (trace w') = actions (trace w) /\
   listener_holds (trace w') = listener_holds (trace w)) \/
  (actions (trace w') = actions (trace w) ++ [now] /\
   listener_holds (trace w') = listener_holds (trace w) ++ [held]).
Proof.
  open_world w. intros ->.
  destruct i as [| x y wheel_delta | is_press | repeat]; concretize; run_all; split_ifs;
    trace_simpl;
    solve [ left; split; reflexivity | right; split; reflexivity ].
Qed.

Lemma listener_hold_counts_witness :
  let w := world_in ACTIVITY_IDLE 0 0 (Some 7%nat) in
  listener (self w) = Some 7%nat /\
  listener_holds (trace (exec (run_input InAction 10 true) w)) = [0%nat] /\
  listener_holds (trace (exec (run_input (InButton true) 10 true) w)) = [1%nat].
Proof.
  split; [reflexivity |].
  pose proof (listener_hold_counts (world_in ACTIVITY_IDLE 0 0 (Some 7%nat)) 7%nat
                InAction 10 true eq_refl) as Ha.
  pose proof (listener_hold_counts (world_in ACTIVITY_IDLE 0 0 (Some 7%nat)) 7%nat
                (InButton true) 10 true eq_refl) as Hb.
  cbv zeta in Ha, Hb.
  destruct Ha as [[Ha _] | [_ Ha]]; [discriminate Ha |].
  destruct Hb as [[Hb _] | [_ Hb]]; [discriminate Hb |].
  split; [exact Ha | exact Hb].
Defined.

(** ** Bursts of actions *)

(** What one [action_notify] does to the state and the two timestamps, and
    that it leaves the thresholds alone. *)
Lemma action_notify_fields (w : World) (now : Z) (reply : bool) :
  let m := self w in
  let m' := self (exec (action_notify now reply) w) in
  noise_threshold m' = noise_threshold m /\
  activity_threshold m' = activity_threshold m /\
  last_action_time m' = now /\
  (activity_state m', first_action_time m') =
    match activity_state m with
    | ACTIVITY_IDLE =>
        (if activity_threshold m =? 0 then ACTIVITY_ACTIVE else ACTIVITY_NOISE, now)
    | ACTIVITY_NOISE =>
        if noise_threshold m <? gint64_sub now (last_action_time m)
        then (ACTIVITY_NOISE, now)
        else (if activity_threshold m <=? gint64_sub now (first_action_time m)
              then ACTIVITY_ACTIVE else ACTIVITY_NOISE,
              first_action_time m)
    | s => (s, first_action_time m)
    end.
Proof.
  open_world w. concretize; run_all; split_ifs; repeat split; reflexivity.
Qed.

Lemma exec_action_ops_cons (t : Z) (r : bool) (ts : list (Z * bool)) (w : World) :
  exec (run_ops (action_ops ((t, r) :: ts))) w =
  exec (run_ops (action_ops ts)) (exec (action_notify t r) w).
Proof. unfold action_ops. cbn [map fst snd]. apply exec_run_ops_cons. Qed.

Lemma within_gaps_last_time (noise prev : Z) (ts : list Z) :
  within_gaps noise prev ts = true -> prev <= last_time prev ts.
Proof.
  revert prev. induction ts as [| t ts IH]; intros prev H; cbn in *; [lia |].
  apply andb_true_iff in H. destruct H as [H Hrest].
  apply andb_true_iff in H. destruct H as [H0 _].
  apply Z.leb_le in H0. specialize (IH _ Hrest). lia.
Qed.

(** A burst that is under way: the monitor is in Noise or Active with the
    burst started at [t0] and the last action at [prev]; actions follow at
    clock values that never go back and never leave a gap above
    [noise_threshold]. The burst start stays [t0], and the monitor is Active
    at the end exactly when it was Active already or the burst has lasted
    [activity_threshold] by its last action. *)
Lemma burst_continues (ts : list (Z * bool)) (w : World) (t0 prev : Z) :
  activity_state (self w) = ACTIVITY_NOISE \/
  activity_state (self w) = ACTIVITY_ACTIVE ->
  first_action_time (self w) = t0 ->
  last_action_time (self w) = prev ->
  t0 <= prev ->
  noise_threshold (self w) < 2 ^ 63 ->
  last_time prev (map fst ts) - t0 < 2 ^ 63 ->
  within_gaps (noise_threshold (self w)) prev (map fst ts) = true ->
  let m' := self (exec (run_ops (action_ops ts)) w) in
  first_action_time m' = t0 /\
  last_action_time m' = last_time prev (map fst ts) /\
  activity_state m' =
    (if ActivityState_eqb (activity_state (self w)) ACTIVITY_ACTIVE
        || (match ts with [] => false | _ => true end
            && (activity_threshold (self w) <=? last_time prev (map fst ts) - t0))
     then ACTIVITY_ACTIVE else ACTIVITY_NOISE).
Proof.
  revert w prev. induction ts as [| [t r] ts IH]; intros w prev Hs Hf Hl Hle Hn Hb Hg.
  - cbn. destruct Hs as [-> | ->]; cbn; auto.
  - rewrite exec_action_ops_cons. cbn [map fst last_time within_gaps] in *.
    apply andb_true_iff in Hg. destruct Hg as [Hg Hrest].
    apply andb_true_iff in Hg. destruct Hg as [Hg0 Hg1].
    apply Z.leb_le in Hg0. apply Z.leb_le in Hg1.
    pose proof (within_gaps_last_time _ _ _ Hrest) as Hmono.
    destruct (action_notify_fields w t r) as (Hnt & Hat & Hlast & Hsf).
    rewrite Hf, Hl in Hsf.
    assert (Hfl : gint64_sub t prev = t - prev).
    { apply gint64_sub_fits. unfold fits_gint64, fits.
      change (2 ^ (64 - 1)) with (2 ^ 63). lia. }
    assert (Hff : gint64_sub t t0 = t - t0).
    { apply gint64_sub_fits. unfold fits_gint64, fits.
      change (2 ^ (64 - 1)) with (2 ^ 63). lia. }
    rewrite Hfl, Hff in Hsf.
    assert (Hgap : (noise_threshold (self w) <? t - prev) = false)
      by (apply Z.ltb_ge; lia).
    rewrite Hgap in Hsf.
    set (w1 := exec (action_notify t r) w) in *.
    assert (Hs1 : activity_state (self w1) =
                  (if ActivityState_eqb (activity_state (self w)) ACTIVITY_ACTIVE
                      || (activity_threshold (self w) <=? t - t0)
                   then ACTIVITY_ACTIVE else ACTIVITY_NOISE)
                  /\ first_action_time (self w1) = t0).
    { destruct Hs as [Hs | Hs]; rewrite Hs in Hsf |- *; cbn;
        injection Hsf as Hst Hfi; split; assumption. }
    destruct Hs1 as [Hs1 Hf1].
    assert (Hs1' : activity_state (self w1) = ACTIVITY_NOISE \/
                   activity_state (self w1) = ACTIVITY_ACTIVE).
    { rewrite Hs1. destruct (_ || _); auto. }
    rewrite <- Hnt in Hrest.
    assert (Hn1 : noise_threshold (self w1) < 2 ^ 63) by (rewrite Hnt; exact Hn).
    destruct (IH w1 t Hs1' Hf1 Hlast ltac:(lia) Hn1 Hb Hrest) as (Hf' & Hl' & Hs').
    split; [exact Hf' |]. split; [exact Hl' |].
    rewrite Hs', Hs1, Hat.
    destruct (ActivityState_eqb (activity_state (self w)) ACTIVITY_ACTIVE); cbn;
      [reflexivity |].
    destruct ts as [| p ts'].
    + cbn [map last_time andb orb].
      destruct (activity_threshold (self w) <=? t - t0); reflexivity.
    + destruct (activity_threshold (self w) <=? t - t0) eqn:E1;
        destruct (activity_threshold (self w) <=? last_time t (map fst (p :: ts')) - t0)
          eqn:E2; cbn [andb orb ActivityState_eqb]; try reflexivity.
      apply Z.leb_le in E1. apply Z.leb_gt in E2. lia.
Qed.

(** A burst from Idle. On an idle monitor with a non-zero
    [activity_threshold], actions arrive at [t0] and then at clock values
    that never go back and never leave a gap above [noise_threshold]. After
    the burst [first_action_time] is [t0], [last_action_time] is the time of
    the last action, and the monitor is Active when there was more than one
    action and the last came [activity_threshold] or more after [t0], and in
    Noise otherwise. *)
Theorem burst_from_idle (w : World) (t0 : Z) (r0 : bool) (ts : list (Z * bool)) :
  activity_state (self w) = ACTIVITY_IDLE ->
  activity_threshold (self w) <> 0 ->
  noise_threshold (self w) < 2 ^ 63 ->
  last_time t0 (map fst ts) - t0 < 2 ^ 63 ->
  within_gaps (noise_threshold (self w)) t0 (map fst ts) = true ->
  let m' := self (exec (run_ops (action_ops ((t0, r0) :: ts))) w) in
  first_action_time m' = t0 /\
  last_action_time m' = last_time t0 (map fst ts) /\
  activity_state m' =
    (if match ts with [] => false | _ => true end
        && (activity_threshold (self w) <=? last_time t0 (map fst ts) - t0)
     then ACTIVITY_ACTIVE else ACTIVITY_NOISE).
Proof.
  intros Hs Hat Hn Hb Hg. cbv zeta. rewrite exec_action_ops_cons.
  destruct (action_notify_fields w t0 r0) as (Hnt & Hat' & Hlast & Hsf).
  rewrite Hs in Hsf. apply Z.eqb_neq in Hat. rewrite Hat in Hsf.
  injection Hsf as Hst Hfi.
  set (w1 := exec (action_notify t0 r0) w) in *.
  rewrite <- Hnt in Hg, Hn.
  destruct (burst_continues ts w1 t0 t0 (or_introl Hst) Hfi Hlast (Z.le_refl _)
              Hn Hb Hg) as (Hf' & Hl' & Hs').
  split; [exact Hf' |]. split; [exact Hl' |].
  rewrite Hs', Hst, Hat'. reflexivity.
Qed.

Lemma burst_from_idle_witness :
  let ts := [(900000, true); (1800000, true); (2700000, true)] in
  let m' := self (exec (run_ops (action_ops ((0, true) :: ts))) world_new) in
  activity_state (self world_new) = ACTIVITY_IDLE /\
  within_gaps (noise_threshold (self world_new)) 0 (map fst ts) = true /\
  first_action_time m' = 0 /\
  last_action_time m' = 2700000 /\
  activity_state m' = ACTIVITY_ACTIVE.
Proof.
  split; [reflexivity |]. split; [reflexivity |].
  assert (Hat : activity_threshold (self world_new) <> 0) by (cbn; discriminate).
  assert (Hn : noise_threshold (self world_new) < 2 ^ 63) by (cbn; lia).
  assert (Hb : last_time 0 (map fst [(900000, true); (1800000, true); (2700000, true)])
               - 0 < 2 ^ 63) by (cbn; lia).
  exact (burst_from_idle world_new 0 true
           [(900000, true); (1800000, true); (2700000, true)]
           eq_refl Hat Hn Hb eq_refl).
Defined.

(** ** Parameters in milliseconds *)

Lemma milliseconds_round_trip (n : Z) :
  fits_int (n * 1000) -> int_of (gint64_div (int_mul n 1000) 1000) = n.
Proof.
  intros H. rewrite (int_mul_fits _ _ H). unfold gint64_div.
  rewrite Z.quot_mul by lia.
  unfold fits_int, fits in H. change (2 ^ (32 - 1)) with 2147483648 in H.
  rewrite gint64_of_fits
    by (unfold fits_gint64, fits; change (2 ^ (64 - 1)) with 9223372036854775808; lia).
  apply int_of_fits. unfold fits_int, fits. change (2 ^ (32 - 1)) with 2147483648. lia.
Qed.

(** [get_parameters] reads back what [set_parameters] stored, for thresholds
    whose number of microseconds fits [int]. *)
Theorem set_get_parameters (w : World) (noise activity idle sens : Z) :
  fits_int (noise * 1000) ->
  fits_int (activity * 1000) ->
  fits_int (idle * 1000) ->
  eval get_parameters (exec (set_parameters noise activity idle sens) w) =
  (noise, activity, idle, sens).
Proof.
  intros Hn Ha Hi. open_world w. concretize; run_all;
    rewrite (milliseconds_round_trip _ Hn), (milliseconds_round_trip _ Ha),
      (milliseconds_round_trip _ Hi); reflexivity.
Qed.

Lemma set_get_parameters_witness :
  fits_int (1500 * 1000) /\
  eval get_parameters (exec (set_parameters 1500 3000 60000 7) world_new) =
  (1500, 3000, 60000, 7).
Proof.
  assert (Hn : fits_int (1500 * 1000)) by (unfold fits_int, fits; cbn; lia).
  assert (Ha : fits_int (3000 * 1000)) by (unfold fits_int, fits; cbn; lia).
  assert (Hi : fits_int (60000 * 1000)) by (unfold fits_int, fits; cbn; lia).
  split; [exact Hn |].
  exact (set_get_parameters world_new 1500 3000 60000 7 Hn Ha Hi).
Defined.

(** ** [shift_time] there and back *)

Lemma fits_int_opp_usec (delta : Z) :
  fits_int (delta * G_USEC_PER_SEC) -> fits_int (- delta * G_USEC_PER_SEC).
Proof.
  unfold fits_int, fits, G_USEC_PER_SEC. change (2 ^ (32 - 1)) with 2147483648. lia.
Qed.

(** [shift_time] as a function of the object: each timestamp that is set
    moves by the [int] product, everything else stays. *)
Lemma shift_time_object (w : World) (delta : Z) :
  self (exec (shift_time delta) w) =
  (let d := int_mul delta G_USEC_PER_SEC in
   let first := first_action_time (self w) in
   let last := last_action_time (self w) in
   with_first_action_time (if first =? 0 then first else gint64_add first d)
     (with_last_action_time (if last =? 0 then last else gint64_add last d)
        (self w))).
Proof.
  open_world w. run.
  destruct (last_action_time0 =? 0); cbn;
    destruct (first_action_time0 =? 0); cbn; reflexivity.
Qed.

Lemma stamp_there_and_back (t d : Z) :
  fits_gint64 t ->
  fits_gint64 (t + d) ->
  t = 0 \/ t + d <> 0 ->
  (let t1 := if t =? 0 then t else gint64_add t d in
   if t1 =? 0 then t1 else gint64_add t1 (- d)) = t.
Proof.
  intros Ht Htd Hz. cbv zeta.
  destruct (t =? 0) eqn:E.
  - rewrite E. reflexivity.
  - apply Z.eqb_neq in E. rewrite (gint64_add_fits _ _ Htd).
    destruct (t + d =? 0) eqn:E'.
    + apply Z.eqb_eq in E'. destruct Hz as [Hz | Hz]; [contradiction | lia].
    + rewrite gint64_add_fits; [lia |].
      replace (t + d + - d) with t by lia. exact Ht.
Qed.

(** A shift by [delta] seconds followed by a shift by [- delta] restores the
    object, provided no timestamp that is set lands on 0, the value that
    means unset, on the way (and the arithmetic does not overflow). *)
Theorem shift_time_there_and_back (w : World) (delta : Z) :
  fits_int (delta * G_USEC_PER_SEC) ->
  fits_gint64 (first_action_time (self w)) ->
  fits_gint64 (last_action_time (self w)) ->
  fits_gint64 (first_action_time (self w) + delta * 1000000) ->
  fits_gint64 (last_action_time (self w) + delta * 1000000) ->
  first_action_time (self w) = 0 \/ first_action_time (self w) + delta * 1000000 <> 0 ->
  last_action_time (self w) = 0 \/ last_action_time (self w) + delta * 1000000 <> 0 ->
  self (exec (shift_time (- delta)) (exec (shift_time delta) w)) = self w.
Proof.
  intros Hd Hf Hl Hf' Hl' Hfz Hlz.
  pose proof (fits_int_opp_usec _ Hd) as Hd'.
  rewrite (shift_time_object (exec (shift_time delta) w)), (shift_time_object w).
  rewrite (int_mul_fits _ _ Hd), (int_mul_fits _ _ Hd').
  unfold G_USEC_PER_SEC. rewrite Z.mul_opp_l.
  pose proof (stamp_there_and_back _ _ Hf Hf' Hfz) as Ef.
  pose proof (stamp_there_and_back _ _ Hl Hl' Hlz) as El.
  cbv zeta in Ef, El |- *.
  destruct w as [m tr]. destruct m. cbn in *. rewrite Ef, El. reflexivity.
Qed.

Lemma shift_time_there_and_back_witness :
  let w := world_in ACTIVITY_NOISE 4000000 4500000 None in
  fits_int (60 * G_USEC_PER_SEC) /\
  self (exec (shift_time (- 60)) (exec (shift_time 60) w)) = self w.
Proof.
  assert (Hd : fits_int (60 * G_USEC_PER_SEC))
    by (unfold fits_int, fits, G_USEC_PER_SEC; cbn; lia).
  split; [exact Hd |].
  apply (shift_time_there_and_back (world_in ACTIVITY_NOISE 4000000 4500000 None) 60 Hd);
    try (apply fits_gint64_small; cbn; lia); right; cbn; lia.
Defined.

(** A timestamp that a shift moves exactly onto 0 has become unset: no later
    shift moves it. *)
Theorem shift_time_onto_zero (w : World) (delta : Z) (later : list Z) :
  fits_int (delta * G_USEC_PER_SEC) ->
  last_action_time (self w) + delta * 1000000 = 0 ->
  last_action_time
    (self (exec (run_ops (map OpShiftTime later)) (exec (shift_time delta) w))) = 0.
Proof.
  intros Hd Hz.
  assert (H0 : last_action_time (self (exec (shift_time delta) w)) = 0).
  { rewrite shift_time_object. rewrite (int_mul_fits _ _ Hd). unfold G_USEC_PER_SEC.
    destruct w as [m tr]. destruct m. cbn in *.
    destruct (last_action_time0 =? 0) eqn:E; [apply Z.eqb_eq in E; exact E |].
    unfold gint64_add. rewrite Hz. reflexivity. }
  revert H0. generalize (exec (shift_time delta) w). clear.
  induction later as [| d later IH]; intros w H0; [exact H0 |].
  cbn [map]. rewrite exec_run_ops_cons. apply IH.
  cbn [run_op]. rewrite shift_time_object.
  destruct w as [m tr]. destruct m. cbn in *. rewrite H0. reflexivity.
Qed.

Lemma shift_time_onto_zero_witness :
  let w := world_in ACTIVITY_ACTIVE 3000000 5000000 None in
  fits_int (-5 * G_USEC_PER_SEC) /\
  last_action_time (self w) + -5 * 1000000 = 0 /\
  last_action_time
    (self (exec (run_ops (map OpShiftTime [5; 100])) (exec (shift_time (-5)) w))) = 0.
Proof.
  assert (Hd : fits_int (-5 * G_USEC_PER_SEC))
    by (unfold fits_int, fits, G_USEC_PER_SEC; cbn; lia).
  split; [exact Hd |]. split; [reflexivity |].
  exact (shift_time_onto_zero (world_in ACTIVITY_ACTIVE 3000000 5000000 None) (-5)
           [5; 100] Hd eq_refl).
Defined.

(** ** Queries *)

(* as [split_ifs], for runs that meet the same test twice *)
Ltac split_ifs_once :=
  repeat (match goal with
          | H : ?b = _ |- context [if ?b then _ else _] => rewrite H
          | |- context [if ?a <? ?b then _ else _] => destruct (a <? b) eqn:?
          end;
          reduce_run).

(** Asking again at the same instant changes nothing: a second
    [get_current_state] at the same clock value returns what the first
    returned and leaves the object as the first left it. *)
Theorem get_current_state_again (w : World) (now : Z) :
  let w1 := exec (get_current_state now) w in
  eval (get_current_state now) w1 = eval (get_current_state now) w /\
  self (exec (get_current_state now) w1) = self w1.
Proof.
  open_world w. concretize; run_all; split_ifs_once; split; reflexivity.
Qed.

(** ** The wrappers of [action_notify] *)

(** [keyboard_notify], whatever its repeat flag, and a button press leave the
    object as [action_notify] does, the press with the button flag set
    first; a button release sets the flag to false and does nothing else. *)
Theorem keyboard_and_button_notify (w : World) (repeat : bool) (now : Z) (reply : bool) :
  let pressed := mkWorld (with_button_is_pressed true (self w)) (trace w) in
  let released := mkWorld (with_button_is_pressed false (self w)) (trace w) in
  self (exec (keyboard_notify repeat now reply) w) =
    self (exec (action_notify now reply) w) /\
  self (exec (button_notify true now reply) w) =
    self (exec (action_notify now reply) pressed) /\
  exec (button_notify false now reply) w = released.
Proof.
  open_world w. concretize; run_all; split_ifs; repeat split; reflexivity.
Qed.

(** ** Mouse reports *)

Lemma int_abs_sub_diag (x : Z) : int_abs (int_sub x x) = 0.
Proof. unfold int_sub. rewrite Z.sub_diag. reflexivity. Qed.

Lemma same_position_test (sens x y : Z) :
  0 < sens ->
  (sens <=? int_abs (int_sub x x)) || (sens <=? int_abs (int_sub y y))
  || false || false = false.
Proof.
  intros Hs. rewrite !int_abs_sub_diag.
  replace (sens <=? 0) with false by (symmetry; apply Z.leb_gt; exact Hs).
  reflexivity.
Qed.

(* the tests of [action_notify] left in the goal, by cases *)
Ltac split_tests :=
  match goal with
  | |- context [if ?a <? ?b then _ else _] => destruct (a <? b)
  | |- context [if ?a <=? ?b then _ else _] => destruct (a <=? b)
  | |- context [if ?a =? ?b then _ else _] => destruct (a =? b)
  end.


(** A report of the position already stored, with no wheel movement, is not
    an action when the sensitivity is positive and no button is held: it
    leaves the monitor and the trace as they are. *)
Theorem mouse_notify_same_position (w : World) (x y wheel_delta : Z)
    (now now' : Z) (reply reply' : bool) :
  0 < sensitivity (self w) ->
  button_is_pressed (self w) = false ->
  let w1 := exec (mouse_notify x y wheel_delta now reply) w in
  exec (mouse_notify x y 0 now' reply') w1 = w1.
Proof.
  open_world w. intros Hs ->.
  pose proof (same_position_test sensitivity0 x y Hs) as Htest.
  concretize; run_all;
    match goal with
    | |- context [if ?a || ?b || ?c || false then _ else _] =>
        destruct (a || b || c || false)
    end; reduce_run;
    repeat (first [ rewrite Htest
                  | progress change (0 =? 0) with true
                  | split_tests ];
            reduce_run);
    reflexivity.
Qed.

Lemma mouse_notify_same_position_witness :
  let w := world_in ACTIVITY_IDLE 0 0 (Some 7%nat) in
  let w1 := exec (mouse_notify 40 50 0 10 true) w in
  0 < sensitivity (self w) /\
  button_is_pressed (self w) = false /\
  exec (mouse_notify 40 50 0 20 true) w1 = w1.
Proof.
  assert (Hs : 0 < sensitivity (self (world_in ACTIVITY_IDLE 0 0 (Some 7%nat))))
    by (cbn; lia).
  split; [exact Hs |]. split; [reflexivity |].
  exact (mouse_notify_same_position (world_in ACTIVITY_IDLE 0 0 (Some 7%nat))
           40 50 0 10 20 true true Hs eq_refl).
Defined.

(** With a sensitivity of 0 or less every mouse report is an action, even
    one that does not move (the difference in x is assumed not to overflow
    [int]). *)
Theorem mouse_notify_zero_sensitivity (w : World) (x y wheel_delta now : Z)
    (reply : bool) :
  sensitivity (self w) <= 0 ->
  - 2 ^ 31 < x - prev_x (self w) < 2 ^ 31 ->
  actions (trace (exec (mouse_notify x y wheel_delta now reply) w)) =
  actions (trace w) ++ [now].
Proof.
  open_world w. intros Hs Hx.
  assert (Hfx : fits_int (x - prev_x0))
    by (unfold fits_int, fits; change (2 ^ (32 - 1)) with 2147483648; lia).
  assert (E : (sensitivity0 <=? int_abs (int_sub x prev_x0)) = true).
  { rewrite (int_sub_fits _ _ Hfx), (int_abs_fits _ Hx). apply Z.leb_le. lia. }
  concretize; run_all; rewrite E; cbn [orb]; reduce_run;
    repeat (split_tests; reduce_run); trace_simpl; reflexivity.
Qed.

Lemma mouse_notify_zero_sensitivity_witness :
  let w := exec (set_parameters 1000 2000 5000 0) world_new in
  sensitivity (self w) <= 0 /\
  actions (trace (exec (mouse_notify 0 0 0 10 true) w)) = [10].
Proof.
  assert (Hs : sensitivity (self (exec (set_parameters 1000 2000 5000 0) world_new)) <= 0)
    by (cbn; lia).
  assert (Hx : - 2 ^ 31 < 0 - prev_x (self (exec (set_parameters 1000 2000 5000 0)
                                                world_new)) < 2 ^ 31)
    by (cbn; lia).
  split; [exact Hs |].
  exact (mouse_notify_zero_sensitivity (exec (set_parameters 1000 2000 5000 0) world_new)
           0 0 0 10 true Hs Hx).
Defined.

(** ** Actions in every state *)

(** A registered action is never dropped, whatever the state, Suspended and
    Active included: [action_notify] stamps [last_action_time] with the clock
    and calls the listener that is set exactly once. *)
Theorem action_notify_always_notifies (w : World) (l : Listener) (now : Z)
    (reply : bool) :
  listener (self w) = Some l ->
  let w' := exec (action_notify now reply) w in
  last_action_time (self w') = now /\
  listener_calls (trace w') = listener_calls (trace w) ++ [l].
Proof.
  open_world w. intros ->. concretize; run_all; split_ifs; trace_simpl; split; reflexivity.
Qed.

Lemma action_notify_always_notifies_witness :
  let w := world_in ACTIVITY_SUSPENDED 0 0 (Some 7%nat) in
  let w' := exec (action_notify 10 true) w in
  listener (self w) = Some 7%nat /\
  last_action_time (self w') = 10 /\
  listener_calls (trace w') = [7%nat].
Proof.
  split; [reflexivity |].
  exact (action_notify_always_notifies (world_in ACTIVITY_SUSPENDED 0 0 (Some 7%nat))
           7%nat 10 true eq_refl).
Defined.

(** ** A new burst after a reset *)

(** After [resume], [set_parameters], or [force_idle] on a monitor that is
    not suspended, the next action starts a new burst: both timestamps are
    the time of that action, and the state is Active when the activity
    threshold then in force is 0 and Noise otherwise. *)
Theorem burst_after_reset (w : World) (o : Op) (now : Z) (reply : bool) :
  resets_to_idle (activity_state (self w)) o = true ->
  let w1 := exec (run_op o) w in
  let w2 := exec (action_notify now reply) w1 in
  first_action_time (self w2) = now /\
  last_action_time (self w2) = now /\
  activity_state (self w2) =
    (if activity_threshold (self w1) =? 0 then ACTIVITY_ACTIVE else ACTIVITY_NOISE).
Proof.
  open_world w. intros Ho.
  each_op o; concretize; try discriminate Ho; run_all; split_ifs; repeat split; reflexivity.
Qed.

Lemma burst_after_reset_witness :
  let w := world_in ACTIVITY_SUSPENDED 1000000 2000000 None in
  let w1 := exec (run_op OpResume) w in
  let w2 := exec (action_notify 9000000 true) w1 in
  resets_to_idle (activity_state (self w)) OpResume = true /\
  first_action_time (self w2) = 9000000 /\
  last_action_time (self w2) = 9000000 /\
  activity_state (self w2) =
    (if activity_threshold (self w1) =? 0 then ACTIVITY_ACTIVE else ACTIVITY_NOISE).
Proof.
  split; [reflexivity |].
  exact (burst_after_reset (world_in ACTIVITY_SUSPENDED 1000000 2000000 None)
           OpResume 9000000 true eq_refl).
Defined.
